(** * Rule catalog merge of [analyze_remaster_patterns.py]

    A shallow embedding of [analyze_and_update] and the helpers it relies on:
    the Python string operations it uses ([str.split('.')], ['.'.join],
    [int()], [str()] and truthiness), the rule catalog and the candidate
    rules, the merge loop and the version/description update, and the
    load / abort / save control flow of the entry point. *)

From Stdlib Require Import String Ascii NArith ZArith List Bool Lia.
Import ListNotations.
Open Scope string_scope.

(** ** Python strings *)

Module Py.

(** A character is a code point in U+0000..U+00FF (Rocq's 8-bit [ascii]
    read as Latin-1). The only decimal digits in this range are the ASCII
    ones, so [int()] on such strings needs no Unicode digit table; strings
    with code points beyond U+00FF (other scripts' digits, the arrow in the
    candidates' example strings) are kept only as opaque data. *)
Definition is_dot (c : ascii) : bool := Ascii.eqb c ".".

(** [s.split('.')]: always at least one component; empty components are kept. *)
Fixpoint split_dot (s : string) : list string :=
  match s with
  | EmptyString => [EmptyString]
  | String c r =>
      let parts := split_dot r in
      if is_dot c then EmptyString :: parts
      else match parts with
           | p :: ps => String c p :: ps
           | [] => [String c EmptyString]
           end
  end.

(** ['.'.join(parts)]. *)
Fixpoint join_dot (parts : list string) : string :=
  match parts with
  | [] => EmptyString
  | [p] => p
  | p :: ps => p ++ "." ++ join_dot ps
  end.

(** [parts[i] = x] on a Python list: [None] is the [IndexError]. *)
Fixpoint set_nth {A} (l : list A) (i : nat) (x : A) : option (list A) :=
  match l, i with
  | [], _ => None
  | _ :: r, O => Some (x :: r)
  | y :: r, S j => option_map (cons y) (set_nth r j x)
  end.

(** Whitespace stripped by [int()]: CPython strips [Py_ISSPACE] ASCII
    characters (space and \t \n \v \f \r, codes 9..13) and the non-ASCII
    [str.isspace] characters it first converts to spaces, which below U+0100
    are U+0085 and U+00A0. The separators 28..31 are [str.isspace] but are
    not stripped by [int()]. *)
Definition is_space (c : ascii) : bool :=
  let n := nat_of_ascii c in
  (n =? 32)%nat || ((9 <=? n) && (n <=? 13))%nat || (n =? 133)%nat || (n =? 160)%nat.

Definition is_digit (c : ascii) : bool :=
  let n := nat_of_ascii c in ((48 <=? n) && (n <=? 57))%nat.

Definition digit_val (c : ascii) : N := N.of_nat (nat_of_ascii c - 48).

Fixpoint drop_space (s : string) : string :=
  match s with
  | String c r => if is_space c then drop_space r else s
  | EmptyString => EmptyString
  end.

Fixpoint rev_str (s : string) : string :=
  match s with
  | EmptyString => EmptyString
  | String c r => rev_str r ++ String c EmptyString
  end.

(** [str.strip()] of the whitespace above. *)
Definition strip (s : string) : string := rev_str (drop_space (rev_str (drop_space s))).

(** Decimal digits with single underscores between digits, as [int()]
    accepts them in base 10; [after_digit] records that the last character
    read was a digit. *)
Fixpoint digits_body (acc : N) (after_digit : bool) (s : string) : option N :=
  match s with
  | EmptyString => if after_digit then Some acc else None
  | String c r =>
      if is_digit c then digits_body (acc * 10 + digit_val c) true r
      else if Ascii.eqb c "_" && after_digit then digits_body acc false r
      else None
  end.

(** [sys.get_int_max_str_digits()] default (CPython >= 3.11). *)
Definition max_str_digits : Z := 4300.

(** Number of digit characters of a string. *)
Fixpoint count_digits (s : string) : nat :=
  match s with
  | EmptyString => O
  | String c r => (if is_digit c then 1 else 0) + count_digits r
  end.

(** [int(s)]: [None] is the [ValueError]. A literal with more than
    [max_str_digits] digits (underscores and sign not counted) is refused. *)
Definition py_int (s : string) : option Z :=
  let t := strip s in
  if (max_str_digits <? Z.of_nat (count_digits t))%Z then None else
  match t with
  | String c r =>
      if Ascii.eqb c "-" then option_map (fun n => Z.opp (Z.of_N n)) (digits_body 0 false r)
      else if Ascii.eqb c "+" then option_map Z.of_N (digits_body 0 false r)
      else option_map Z.of_N (digits_body 0 false (String c r))
  | EmptyString => None
  end.

Definition digit_char (d : N) : ascii := ascii_of_nat (48 + N.to_nat d).

(** Decimal digits of [n], least significant first. *)
Fixpoint rev_digits (fuel : nat) (n : N) : list ascii :=
  match fuel with
  | O => []
  | S f =>
      digit_char (N.modulo n 10)
        :: (if (N.div n 10 =? 0)%N then [] else rev_digits f (N.div n 10))
  end.

Fixpoint string_of_chars (l : list ascii) : string :=
  match l with
  | [] => EmptyString
  | c :: r => String c (string_of_chars r)
  end.

(** [str(n)] for a non-negative integer (the fuel, one more than the
    bit length, exceeds the number of decimal digits). *)
Definition str_N (n : N) : string :=
  string_of_chars (List.rev (rev_digits (S (N.to_nat (N.size n))) n)).

(** [str(z)]. *)
Definition str_Z (z : Z) : string :=
  if (z <? 0)%Z then String "-" (str_N (Z.abs_N z)) else str_N (Z.to_N z).

(** [str(z)] with the conversion limit: [None] is the [ValueError] raised
    when the decimal representation has more than [max_str_digits] digits
    (the sign is not counted). *)
Definition py_str_Z (z : Z) : option string :=
  let s := str_Z z in
  if (max_str_digits <? Z.of_nat (count_digits s))%Z then None else Some s.

(** [str(n)] of a rule count (far below the conversion limit). *)
Definition str_nat (n : nat) : string := str_N (N.of_nat n).

(** [all(p(c) for c in s)]. *)
Fixpoint str_forall (p : ascii -> bool) (s : string) : bool :=
  match s with
  | EmptyString => true
  | String c r => p c && str_forall p r
  end.

(** Python truthiness of a string. *)
Definition str_truthy (s : string) : bool :=
  match s with EmptyString => false | _ => true end.

(** Auxiliary predicates for the proofs: a decimal digit character, the
    value of a digit sequence, characters that [strip] and [split('.')]
    leave alone. *)
Definition is_digit_char (c : ascii) : Prop := exists d, (d < 10)%N /\ c = digit_char d.

Definition digits_value (l : list ascii) (acc : N) : N :=
  fold_left (fun a c => a * 10 + digit_val c)%N l acc.

Definition plain_char (c : ascii) : bool := negb (is_space c) && negb (is_dot c).

Definition no_dot (s : string) : bool := str_forall (fun c => negb (is_dot c)) s.

End Py.

(** ** Data model *)

(** A pattern spec [{"find": ..., "replace": ...}]. *)
Record pattern_spec := mk_pattern { find : string; replace : string }.

(** A rule; exactly one of [track_name] / [album_name] by convention. *)
Record rule := mk_rule {
  name : string;
  description : string;
  examples : list string;
  track_name : option pattern_spec;
  album_name : option pattern_spec;
  requires_confirmation : bool }.

(** The catalog document: [version] and [description] are [None] when the
    key is absent from the dictionary. *)
Record catalog := mk_catalog {
  version : option string;
  cat_description : option string;
  rules : list rule }.

Inductive py_error := IndexError | ValueError | DecodeError.

Inductive result (A : Type) := Ok (a : A) | Err (e : py_error).
Arguments Ok {A} a.
Arguments Err {A} e.

(** ** The merge of [analyze_and_update] (lines 159-186) *)

Definition mem (k : string) (ks : list string) : bool := existsb (String.eqb k) ks.

(** Lines 160-163: [existing_patterns], the [find] strings of the rules that
    have a [track_name] pattern spec (a set; membership is what is used). *)
Fixpoint existing_patterns (rs : list rule) : list string :=
  match rs with
  | [] => []
  | r :: rs' =>
      match track_name r with
      | Some p => find p :: existing_patterns rs'
      | None => existing_patterns rs'
      end
  end.

(** Lines 168-172: [pattern_key]. *)
Definition pattern_key (c : rule) : option string :=
  match track_name c with
  | Some p => Some (find p)
  | None => match album_name c with Some p => Some (find p) | None => None end
  end.

(** Line 174: [if pattern_key and pattern_key not in existing_patterns]. *)
Definition keep (existing : list string) (c : rule) : bool :=
  match pattern_key c with
  | Some k => Py.str_truthy k && negb (mem k existing)
  | None => false
  end.

(** One iteration of the loop of lines 167-177 on the state
    [(current_rules['rules'], new_rules_added, names printed as added)]. *)
Definition step (existing : list string) (st : list rule * nat * list string) (c : rule)
  : list rule * nat * list string :=
  let '(rs, n, names) := st in
  if keep existing c then ((rs ++ [c])%list, S n, (names ++ [name c])%list) else st.

Definition scan (existing : list string) (rs : list rule) (cands : list rule)
  : list rule * nat * list string :=
  fold_left (step existing) cands (rs, O, []).

(** Lines 181-184: the version bump. *)
Definition bump_version (v : string) : result string :=
  let parts := Py.split_dot v in
  match nth_error parts 1 with
  | None => Err IndexError
  | Some p =>
      match Py.py_int p with
      | None => Err ValueError
      | Some z =>
          match Py.py_str_Z (z + 1) with
          | None => Err ValueError
          | Some s =>
              match Py.set_nth parts 1 s with
              | Some ps => Ok (Py.join_dot ps)
              | None => Err IndexError
              end
          end
      end
  end.

(** Line 186. *)
Definition updated_description (n : nat) : string :=
  "Comprehensive set of rewrite rules to remove remaster information from track and album names, based on analysis of 600+ real Last.fm tracks. Updated with "
  ++ Py.str_nat n ++ " additional patterns.".

(** [mergeRules]: lines 159-186 on an in-memory catalog; the result is the
    catalog after the loop and the update, the added count and the names of
    the added rules. *)
Definition merge_rules (cat : catalog) (cands : list rule)
  : result (catalog * nat * list string) :=
  let existing := existing_patterns (rules cat) in
  let '(rs, n, names) := scan existing (rules cat) cands in
  if (0 <? n)%nat then
    match bump_version (match version cat with Some v => v | None => "1.0" end) with
    | Err e => Err e
    | Ok v' => Ok (mk_catalog (Some v') (Some (updated_description n)) rs, n, names)
    end
  else Ok (mk_catalog (version cat) (cat_description cat) rs, n, names).

(** ** The loaded document and the entry point (lines 136-192) *)

Set Warnings "-register-all".

(** A JSON value as [json.load] returns it (numbers are modelled as
    integers); an object keeps its keys in document order. *)
Inductive json :=
| JNull
| JBool (b : bool)
| JNum (z : Z)
| JStr (s : string)
| JArr (items : list json)
| JObj (fields : list (string * json)).

(** [bool(value)] in Python. *)
Definition truthy (j : json) : bool :=
  match j with
  | JNull => false
  | JBool b => b
  | JNum z => negb (Z.eqb z 0)
  | JStr s => Py.str_truthy s
  | JArr items => negb (List.length items =? 0)%nat
  | JObj fields => negb (List.length fields =? 0)%nat
  end.

(** [d[k]] on a dictionary built by [json.load]: the last binding of a
    repeated key wins. *)
Definition lookup (k : string) (fields : list (string * json)) : option json :=
  fold_left (fun acc kv => if String.eqb k (fst kv) then Some (snd kv) else acc) fields None.

Fixpoint decode_list {A} (f : json -> option A) (l : list json) : option (list A) :=
  match l with
  | [] => Some []
  | j :: r =>
      match f j, decode_list f r with
      | Some a, Some ar => Some (a :: ar)
      | _, _ => None
      end
  end.

Definition decode_string (j : json) : option string :=
  match j with JStr s => Some s | _ => None end.

Definition decode_pattern (j : json) : option pattern_spec :=
  match j with
  | JObj fs =>
      match lookup "find" fs, lookup "replace" fs with
      | Some (JStr f), Some (JStr r) => Some (mk_pattern f r)
      | _, _ => None
      end
  | _ => None
  end.

(** An optional key: [Some None] when absent, [None] when ill-typed. *)
Definition decode_optional {A} (f : json -> option A) (o : option json) : option (option A) :=
  match o with
  | None => Some None
  | Some j => option_map Some (f j)
  end.

Definition decode_rule (j : json) : option rule :=
  match j with
  | JObj fs =>
      match lookup "name" fs, lookup "description" fs, lookup "examples" fs,
            decode_optional decode_pattern (lookup "track_name" fs),
            decode_optional decode_pattern (lookup "album_name" fs),
            lookup "requires_confirmation" fs with
      | Some (JStr n), Some (JStr d), Some (JArr ex), Some t, Some a, Some (JBool rc) =>
          match decode_list decode_string ex with
          | Some exs => Some (mk_rule n d exs t a rc)
          | None => None
          end
      | _, _, _, _, _, _ => None
      end
  | _ => None
  end.

(** The reading of a loaded document in the persisted format (spec, section
    6) as a catalog; [None] for a document outside that format, reported as
    [DecodeError]. The reading is stricter than the Python code: that code
    never reads [name], [description], [examples] or
    [requires_confirmation] of an existing rule, and reads [version] only
    when a rule is added, so it also processes documents that are not in
    the persisted format (a rule without a [name], a [null] version with
    nothing added, a numeric description), for which this reading reports
    [DecodeError] instead. Properties of the
    program after loading are therefore stated on [update_catalog] over
    catalogs, not through this reading. *)
Definition catalog_of_json (j : json) : option catalog :=
  match j with
  | JObj fs =>
      match lookup "rules" fs,
            decode_optional decode_string (lookup "version" fs),
            decode_optional decode_string (lookup "description" fs) with
      | Some (JArr rs), Some v, Some d =>
          option_map (mk_catalog v d) (decode_list decode_rule rs)
      | _, _, _ => None
      end
  | _ => None
  end.

(** What one invocation does: abort without merging, raise, or finish with
    the catalog saved (or [None] when nothing is saved) and the names of
    the rules reported as added. *)
Inductive outcome :=
| Aborted
| Raised (e : py_error)
| Finished (saved : option catalog) (added : list string).

(** Lines 157-195 on a loaded catalog: the merge, then the save when at
    least one rule was added; an exception of the merge propagates before
    [save_updated_rules] is reached. *)
Definition update_catalog (cands : list rule) (cat : catalog) : outcome :=
  match merge_rules cat cands with
  | Err e => Raised e
  | Ok (cat', n, names) =>
      if (0 <? n)%nat then Finished (Some cat') names else Finished None names
  end.

(** [analyze_and_update] with the candidate list as a parameter; [loaded]
    is the value of [load_current_rules()] ([None] when the file is not
    found). *)
Definition analyze_and_update_with (cands : list rule) (loaded : option json) : outcome :=
  match loaded with
  | None => Aborted
  | Some j =>
      if negb (truthy j) then Aborted
      else
        match catalog_of_json j with
        | None => Raised DecodeError
        | Some cat => update_catalog cands cat
        end
  end.

(** ** The candidate list of lines 11-134 *)

Definition mk_candidate (n d : string) (ex : list string) (track : bool) (f : string) : rule :=
  let p := mk_pattern f "$1" in
  if track then mk_rule n d ex (Some p) None false
  else mk_rule n d ex None (Some p) false.

Definition additional_patterns : list rule := [
  mk_candidate "Remove Anniversary Edition from Album"
    "Removes patterns like 'Album (50th Anniversary Edition)' from album names"
    ["Abbey Road (50th Anniversary Edition) → Abbey Road";
     "Pet Sounds (50th Anniversary Edition) → Pet Sounds"]
    false "^(.+?) \(\d+th Anniversary Edition\)$";
  mk_candidate "Remove Deluxe Remaster Album"
    "Removes patterns like 'Album (Deluxe Remaster)' from album names"
    ["Dark Side of the Moon (Deluxe Remaster) → Dark Side of the Moon"]
    false "^(.+?) \(Deluxe Remaster\)$";
  mk_candidate "Remove Super Deluxe Edition Album"
    "Removes patterns like 'Album (Super Deluxe Edition)' from album names"
    ["The White Album (Super Deluxe Edition) → The White Album"]
    false "^(.+?) \(Super Deluxe Edition\)$";
  mk_candidate "Remove HD Remastered"
    "Removes patterns like 'Song - HD Remastered'"
    ["Bohemian Rhapsody - HD Remastered → Bohemian Rhapsody"]
    true "^(.+?) - HD Remastered$";
  mk_candidate "Remove Hi-Res Remaster"
    "Removes patterns like 'Song - Hi-Res Remaster'"
    ["Stairway to Heaven - Hi-Res Remaster → Stairway to Heaven"]
    true "^(.+?) - Hi-Res Remaster$";
  mk_candidate "Remove Stereo Remaster"
    "Removes patterns like 'Song - Stereo Remaster' or 'Song - 2009 Stereo Remaster'"
    ["Come Together - 2009 Stereo Remaster → Come Together";
     "Here Comes the Sun - Stereo Remaster → Here Comes the Sun"]
    true "^(.+?) - (\d{4} )?Stereo Remaster$";
  mk_candidate "Remove Mono Remaster"
    "Removes patterns like 'Song - Mono Remaster' or 'Song - 2014 Mono Remaster'"
    ["I Want to Hold Your Hand - 2014 Mono Remaster → I Want to Hold Your Hand"]
    true "^(.+?) - (\d{4} )?Mono Remaster$";
  mk_candidate "Remove Expanded Edition Track"
    "Removes patterns like 'Song - Expanded Edition'"
    ["Norwegian Wood - Expanded Edition → Norwegian Wood"]
    true "^(.+?) - Expanded Edition$";
  mk_candidate "Remove Collector's Edition Track"
    "Removes patterns like 'Song - Collector's Edition'"
    ["Love Me Do - Collector's Edition → Love Me Do"]
    true "^(.+?) - Collector's Edition$";
  mk_candidate "Remove Anniversary Remaster Track"
    "Removes patterns like 'Song - 50th Anniversary Remaster'"
    ["Yesterday - 50th Anniversary Remaster → Yesterday";
     "Help! - 25th Anniversary Remaster → Help!"]
    true "^(.+?) - \d+th Anniversary Remaster$";
  mk_candidate "Remove Special Edition Track"
    "Removes patterns like 'Song - Special Edition'"
    ["Revolution - Special Edition → Revolution"]
    true "^(.+?) - Special Edition$";
  mk_candidate "Remove Year Digital Remaster with Extra Info"
    "Removes patterns like 'Song - 2009 Digital Remaster / Extra Info'"
    ["The End - 2009 Digital Remaster / Medley → The End"]
    true "^(.+?) - \d{4} Digital Remaster / .*$"
].

(** [analyze_and_update()]. *)
Definition analyze_and_update (loaded : option json) : outcome :=
  analyze_and_update_with additional_patterns loaded.

(** ** Sample catalogs and candidates (spec, section 8) *)

Module Examples.

Definition track_rule (n f : string) : rule := mk_rule n "" [] (Some (mk_pattern f "$1")) None false.

Definition album_rule (n f : string) : rule := mk_rule n "" [] None (Some (mk_pattern f "$1")) false.

(** Scenario A. *)
Definition scenario_a_catalog : catalog :=
  mk_catalog (Some "1.2") None [track_rule "Remove Remastered" "^(.+) - Remastered$"].

Definition scenario_a_candidates : list rule :=
  [track_rule "Remove Remastered" "^(.+) - Remastered$";
   track_rule "Remove HD Remastered" "^(.+) - HD Remastered$"].

Definition empty_catalog (v : option string) : catalog := mk_catalog v None [].

Definition json_catalog (v : string) : json :=
  JObj [("version", JStr v); ("description", JStr ""); ("rules", JArr [])].

(** A catalog with a three-component version and one new candidate. *)
Definition three_part_catalog : catalog := empty_catalog (Some "1.2.3").

Definition hd_candidates : list rule :=
  [track_rule "Remove HD Remastered" "^(.+?) - HD Remastered$"].

(** The string of [k] nines. *)
Fixpoint nines (k : nat) : string :=
  match k with
  | O => EmptyString
  | S k' => String "9" (nines k')
  end.

End Examples.

(** * Proofs *)

(** ** Facts about the Python string operations *)

Module PyFacts.
Import Py.

Lemma digit_char_facts (d : N) :
  (d < 10)%N ->
  is_digit (digit_char d) = true /\ digit_val (digit_char d) = d /\
  is_space (digit_char d) = false /\ is_dot (digit_char d) = false /\
  Ascii.eqb (digit_char d) "-" = false /\ Ascii.eqb (digit_char d) "+" = false.
Proof.
  intros Hd.
  assert (d = 0 \/ d = 1 \/ d = 2 \/ d = 3 \/ d = 4 \/ d = 5 \/ d = 6 \/ d = 7
          \/ d = 8 \/ d = 9)%N as Hc by lia.
  repeat destruct Hc as [Hc | Hc]; subst d; vm_compute; repeat split.
Qed.

Lemma rev_digits_chars (f : nat) (n : N) : Forall is_digit_char (rev_digits f n).
Proof.
  revert n; induction f as [|f IH]; intros n; simpl; [constructor|].
  constructor.
  - exists (n mod 10)%N; split; [apply N.mod_lt; discriminate | reflexivity].
  - destruct (n / 10 =? 0)%N; [constructor | apply IH].
Qed.

Lemma digits_body_chars (l : list ascii) (acc : N) (b : bool) :
  Forall is_digit_char l -> l <> [] ->
  digits_body acc b (string_of_chars l) = Some (digits_value l acc).
Proof.
  revert acc b; induction l as [|c r IH]; intros acc b Hl Hne; [congruence|].
  inversion Hl as [|? ? [d [Hd ->]] Hr]; subst; clear Hne Hl.
  destruct (digit_char_facts d Hd) as (Hdig & Hval & _).
  generalize dependent (digit_char d); intros c Hdig Hval.
  cbn [string_of_chars digits_body]; rewrite Hdig.
  destruct r as [|c' r'].
  - reflexivity.
  - rewrite (IH _ _ Hr ltac:(discriminate)). reflexivity.
Qed.

Lemma digits_value_app (l1 l2 : list ascii) (acc : N) :
  digits_value (l1 ++ l2) acc = digits_value l2 (digits_value l1 acc).
Proof. unfold digits_value; apply fold_left_app. Qed.

Lemma rev_digits_value (f : nat) (n : N) :
  (n < 2 ^ N.of_nat f)%N -> digits_value (List.rev (rev_digits f n)) 0 = n.
Proof.
  revert n; induction f as [|f IH]; intros n Hf; [simpl in *; lia|].
  simpl rev_digits; simpl List.rev.
  rewrite digits_value_app.
  destruct (digit_char_facts (n mod 10) ltac:(apply N.mod_lt; discriminate)) as (_ & Hval & _).
  pose proof (N.div_mod n 10 ltac:(discriminate)) as Hdm.
  destruct (N.eqb_spec (n / 10) 0) as [H0 | H0]; simpl; rewrite Hval.
  - rewrite H0 in Hdm. lia.
  - rewrite IH; [lia|].
    apply N.Div0.div_lt_upper_bound.
    rewrite Nat2N.inj_succ, N.pow_succ_r' in Hf. lia.
Qed.

(** A digit sequence of length [k] read from [acc] stays below
    [(acc + 1) * 10 ^ k]. *)
Lemma digits_value_bound (l : list ascii) (acc : N) :
  Forall is_digit_char l -> (digits_value l acc < (acc + 1) * 10 ^ N.of_nat (length l))%N.
Proof.
  revert acc; induction l as [|c r IH]; intros acc Hl.
  - unfold digits_value; simpl; lia.
  - change (digits_value (c :: r) acc) with (digits_value r (acc * 10 + digit_val c)%N).
    inversion Hl as [|? ? [d [Hd ->]] Hr]; subst.
    destruct (digit_char_facts d Hd) as (_ & Hval & _).
    specialize (IH (acc * 10 + digit_val (digit_char d))%N Hr).
    rewrite Hval in IH |- *.
    change (length (digit_char d :: r)) with (S (length r)).
    rewrite Nat2N.inj_succ, N.pow_succ_r'.
    revert IH; generalize (10 ^ N.of_nat (length r))%N; intros p IH.
    assert (Hm : ((acc * 10 + d + 1) * p <= ((acc + 1) * 10) * p)%N)
      by (apply N.mul_le_mono_r; lia).
    rewrite N.mul_assoc; lia.
Qed.

(** The number of decimal digits of [n] is at most [k] when [n < 10 ^ k]
    (and at least one). *)
Lemma rev_digits_length (f : nat) (n : N) (k : Z) :
  (0 <= k)%Z -> (Z.of_N n < 10 ^ k)%Z ->
  (Z.of_nat (length (rev_digits f n)) <= Z.max 1 k)%Z.
Proof.
  revert n k; induction f as [|f IH]; intros n k Hk Hn; [simpl; lia|].
  simpl rev_digits.
  destruct (N.eqb (n / 10) 0) eqn:E.
  - simpl length; lia.
  - apply N.eqb_neq in E.
    assert (H10 : (10 <= n)%N).
    { destruct (N.lt_ge_cases n 10) as [Hl|Hl]; [|exact Hl].
      exfalso; apply E, N.div_small, Hl. }
    assert (Hk2 : (2 <= k)%Z).
    { destruct (Z.le_gt_cases 2 k) as [Hl|Hl]; [exact Hl|].
      assert (k = 0 \/ k = 1)%Z as [-> | ->] by lia; simpl in Hn; lia. }
    assert (Hd : (Z.of_N (n / 10) < 10 ^ (k - 1))%Z).
    { rewrite N2Z.inj_div. apply Z.div_lt_upper_bound; [lia|].
      replace k with (Z.succ (k - 1)) in Hn by lia.
      rewrite Z.pow_succ_r in Hn by lia. exact Hn. }
    specialize (IH (n / 10)%N (k - 1)%Z ltac:(lia) Hd).
    change (length (?x :: ?r)) with (S (length r)).
    lia.
Qed.

Lemma digit_chars_plain (l : list ascii) :
  Forall is_digit_char l -> str_forall plain_char (string_of_chars l) = true.
Proof.
  induction 1 as [|c r [d [Hd ->]] _ IH]; [reflexivity|].
  destruct (digit_char_facts d Hd) as (_ & _ & Hs & Hdot & _).
  generalize dependent (digit_char d); intros c Hs Hdot.
  cbn [string_of_chars str_forall]; rewrite IH; unfold plain_char; rewrite Hs, Hdot; reflexivity.
Qed.

Lemma str_N_shape (n : N) :
  exists c r, str_N n = String c r /\ is_digit_char c /\
              str_forall plain_char (String c r) = true.
Proof.
  pose proof (digit_chars_plain _ (Forall_rev (rev_digits_chars (S (N.to_nat (N.size n))) n))) as Hp.
  pose proof (Forall_rev (rev_digits_chars (S (N.to_nat (N.size n))) n)) as Hall.
  unfold str_N.
  assert (Hne : List.rev (rev_digits (S (N.to_nat (N.size n))) n) <> []).
  { simpl. intros H. apply app_eq_nil in H. destruct H as [_ H]; discriminate. }
  destruct (List.rev (rev_digits (S (N.to_nat (N.size n))) n)) as [|c r]; [congruence|].
  exists c, (string_of_chars r); split; [reflexivity|].
  inversion Hall; subst; split; assumption.
Qed.

Lemma str_N_digits (n : N) : digits_body 0 false (str_N n) = Some n.
Proof.
  unfold str_N.
  rewrite digits_body_chars.
  - f_equal; apply rev_digits_value.
    rewrite Nat2N.inj_succ, N2Nat.id, N.pow_succ_r'.
    pose proof (N.size_gt n); lia.
  - apply Forall_rev, rev_digits_chars.
  - simpl. intros H. apply app_eq_nil in H. destruct H as [_ H]; discriminate.
Qed.

Lemma count_digits_chars (l : list ascii) :
  Forall is_digit_char l -> count_digits (string_of_chars l) = length l.
Proof.
  induction 1 as [|c r [d [Hd ->]] _ IH]; [reflexivity|].
  destruct (digit_char_facts d Hd) as (Hdig & _).
  generalize dependent (digit_char d); intros c Hdig.
  cbn [string_of_chars count_digits length]; rewrite Hdig, IH; reflexivity.
Qed.

Lemma str_N_count (n : N) :
  count_digits (str_N n) = length (rev_digits (S (N.to_nat (N.size n))) n).
Proof.
  unfold str_N; rewrite count_digits_chars, length_rev; [reflexivity|].
  apply Forall_rev, rev_digits_chars.
Qed.

Lemma str_Z_count (z : Z) : count_digits (str_Z z) = count_digits (str_N (Z.abs_N z)).
Proof. destruct z; reflexivity. Qed.

Lemma max_str_digits_pos : (1 <= max_str_digits)%Z.
Proof. unfold max_str_digits; lia. Qed.

(** [str(z)] has at most [k] digits exactly when [|z| < 10 ^ k]. *)
Lemma str_Z_count_bound (z k : Z) :
  (1 <= k)%Z -> (Z.of_nat (count_digits (str_Z z)) <= k)%Z <-> (Z.abs z < 10 ^ k)%Z.
Proof.
  intros Hk; rewrite str_Z_count, str_N_count.
  rewrite <- Zabs2N.id_abs.
  generalize (Z.abs_N z); intros n; split.
  - intros Hl.
    pose proof (digits_value_bound _ 0 (Forall_rev (rev_digits_chars (S (N.to_nat (N.size n))) n)))
      as Hb.
    rewrite rev_digits_value in Hb.
    + rewrite length_rev in Hb.
      apply N2Z.inj_lt in Hb. rewrite N2Z.inj_mul, N2Z.inj_pow, nat_N_Z in Hb.
      eapply Z.lt_le_trans; [exact Hb|].
      rewrite Z.mul_1_l. apply Z.pow_le_mono_r; lia.
    + rewrite Nat2N.inj_succ, N2Nat.id, N.pow_succ_r'.
      pose proof (N.size_gt n); lia.
  - intros Hn; pose proof (rev_digits_length (S (N.to_nat (N.size n))) n k ltac:(lia) Hn); lia.
Qed.

(** [str(z)] raises exactly when [|z| >= 10 ^ 4300]. *)
Lemma py_str_Z_spec (z : Z) :
  py_str_Z z = if (10 ^ max_str_digits <=? Z.abs z)%Z then None else Some (str_Z z).
Proof.
  unfold py_str_Z; cbv zeta.
  pose proof (str_Z_count_bound z max_str_digits max_str_digits_pos) as Hb.
  destruct (Z.leb_spec (10 ^ max_str_digits) (Z.abs z)) as [H | H].
  - replace (max_str_digits <? _)%Z with true; [reflexivity|].
    symmetry; apply Z.ltb_lt.
    destruct (Z.lt_ge_cases max_str_digits (Z.of_nat (count_digits (str_Z z)))); [assumption|].
    apply Hb in H0; lia.
  - replace (max_str_digits <? _)%Z with false; [reflexivity|].
    symmetry; apply Z.ltb_ge, Hb, H.
Qed.

Lemma string_app_nil (s : string) : (s ++ EmptyString)%string = s.
Proof. induction s as [|c r IH]; simpl; [reflexivity | now rewrite IH]. Qed.

Lemma string_app_assoc (s1 s2 s3 : string) : ((s1 ++ s2) ++ s3)%string = (s1 ++ (s2 ++ s3))%string.
Proof. induction s1 as [|c r IH]; simpl; [reflexivity | now rewrite IH]. Qed.

Lemma rev_str_app (s1 s2 : string) : rev_str (s1 ++ s2) = (rev_str s2 ++ rev_str s1)%string.
Proof.
  induction s1 as [|c r IH]; simpl.
  - now rewrite string_app_nil.
  - now rewrite IH, string_app_assoc.
Qed.

Lemma rev_str_involutive (s : string) : rev_str (rev_str s) = s.
Proof.
  induction s as [|c r IH]; simpl; [reflexivity|].
  now rewrite rev_str_app, IH.
Qed.

Lemma str_forall_app (p : ascii -> bool) (s1 s2 : string) :
  str_forall p (s1 ++ s2) = str_forall p s1 && str_forall p s2.
Proof. induction s1 as [|c r IH]; simpl; [reflexivity|]. now rewrite IH, andb_assoc. Qed.

Lemma str_forall_rev (p : ascii -> bool) (s : string) :
  str_forall p (rev_str s) = str_forall p s.
Proof.
  induction s as [|c r IH]; simpl; [reflexivity|].
  rewrite str_forall_app, IH; simpl. now rewrite andb_true_r, andb_comm.
Qed.

Lemma drop_space_plain (s : string) : str_forall plain_char s = true -> drop_space s = s.
Proof.
  destruct s as [|c r]; simpl; [reflexivity|].
  unfold plain_char; destruct (is_space c); simpl; [discriminate | reflexivity].
Qed.

Lemma strip_plain (s : string) : str_forall plain_char s = true -> strip s = s.
Proof.
  intros H; unfold strip.
  rewrite (drop_space_plain s H).
  rewrite drop_space_plain by (now rewrite str_forall_rev).
  apply rev_str_involutive.
Qed.

Lemma str_Z_plain (z : Z) : str_forall plain_char (str_Z z) = true.
Proof.
  unfold str_Z; destruct (z <? 0)%Z.
  - destruct (str_N_shape (Z.abs_N z)) as (c & r & -> & _ & H).
    cbn [str_forall] in H |- *; rewrite H; reflexivity.
  - destruct (str_N_shape (Z.to_N z)) as (c & r & -> & _ & H); exact H.
Qed.

(** [int(str(z)) == z] below the conversion limit. *)
Lemma py_int_str_Z (z : Z) :
  (Z.abs z < 10 ^ max_str_digits)%Z -> py_int (str_Z z) = Some z.
Proof.
  intros Hlim.
  unfold py_int; cbv zeta; rewrite strip_plain by apply str_Z_plain.
  replace (max_str_digits <? _)%Z with false
    by (symmetry; apply Z.ltb_ge, str_Z_count_bound; [apply max_str_digits_pos | exact Hlim]).
  cbv beta iota.
  unfold str_Z; destruct (Z.ltb_spec z 0) as [Hz | Hz].
  - rewrite (str_N_digits (Z.abs_N z)); cbn.
    f_equal; lia.
  - pose proof (str_N_digits (Z.to_N z)) as Hd.
    destruct (str_N_shape (Z.to_N z)) as (c & r & Hs & [d [Hdl ->]] & _).
    rewrite Hs in *.
    destruct (digit_char_facts d Hdl) as (_ & _ & _ & _ & Hm & Hp).
    rewrite Hm, Hp, Hd; cbn; f_equal; lia.
Qed.

Lemma str_forall_plain_no_dot (s : string) : str_forall plain_char s = true -> no_dot s = true.
Proof.
  unfold no_dot; induction s as [|c r IH]; simpl; [reflexivity|].
  unfold plain_char at 1; intros H.
  apply andb_prop in H as [Hc Hr]; apply andb_prop in Hc as [_ Hc].
  now rewrite Hc, IH.
Qed.

Lemma split_dot_no_dot (s : string) : no_dot s = true -> split_dot s = [s].
Proof.
  unfold no_dot; induction s as [|c r IH]; simpl; [reflexivity|].
  intros H; apply andb_prop in H as [Hc Hr].
  destruct (is_dot c); [discriminate|]. now rewrite IH.
Qed.

Lemma split_dot_app (s rest : string) :
  no_dot s = true -> split_dot (s ++ String "." rest) = s :: split_dot rest.
Proof.
  unfold no_dot; induction s as [|c r IH]; simpl; [reflexivity|].
  intros H; apply andb_prop in H as [Hc Hr].
  destruct (is_dot c); [discriminate|]. now rewrite IH.
Qed.

(** [s == '.'.join(s.split('.'))]'s converse: splitting a join of dot-free
    components gives the components back. *)
Lemma split_join (l : list string) :
  l <> [] -> Forall (fun s => no_dot s = true) l -> split_dot (join_dot l) = l.
Proof.
  induction l as [|p ps IH]; intros Hne Hall; [congruence|].
  inversion Hall as [|? ? Hp Hps]; subst.
  destruct ps as [|q qs].
  - apply split_dot_no_dot, Hp.
  - change (join_dot (p :: q :: qs)) with (p ++ String "." (join_dot (q :: qs)))%string.
    rewrite split_dot_app by exact Hp.
    rewrite IH by (discriminate || exact Hps). reflexivity.
Qed.

Lemma split_dot_components (s : string) : Forall (fun p => no_dot p = true) (split_dot s).
Proof.
  induction s as [|c r IH]; simpl; [repeat constructor|].
  destruct (is_dot c) eqn:Hc; [constructor; [reflexivity | exact IH]|].
  destruct (split_dot r) as [|p ps]; inversion IH; subst; constructor;
    unfold no_dot in *; simpl; rewrite ?Hc; simpl; auto.
Qed.

Lemma str_Z_no_dot (z : Z) : no_dot (str_Z z) = true.
Proof. apply str_forall_plain_no_dot, str_Z_plain. Qed.

(** The string of [k] nines, as [int()] reads it. *)
Lemma nines_plain (k : nat) : str_forall plain_char (Examples.nines k) = true.
Proof. induction k as [|k IH]; [reflexivity|]. cbn [Examples.nines str_forall]; now rewrite IH. Qed.

Lemma nines_count (k : nat) : count_digits (Examples.nines k) = k.
Proof. induction k as [|k IH]; [reflexivity|]. cbn [Examples.nines count_digits]; now rewrite IH. Qed.

Lemma nines_digits_body (k : nat) (acc : N) (b : bool) :
  digits_body acc b (Examples.nines (S k)) = Some ((acc + 1) * 10 ^ N.of_nat (S k) - 1)%N.
Proof.
  revert acc b; induction k as [|k IH]; intros acc b.
  - change (Some (acc * 10 + 9)%N = Some ((acc + 1) * 10 - 1)%N). f_equal. lia.
  - change (digits_body acc b (Examples.nines (S (S k))))
      with (digits_body (acc * 10 + digit_val "9") true (Examples.nines (S k))).
    rewrite IH. f_equal.
    rewrite (Nat2N.inj_succ (S k)), N.pow_succ_r'.
    change (digit_val "9") with 9%N.
    f_equal; ring.
Qed.

Lemma nines_py_int (k : nat) :
  (Z.of_nat (S k) <= max_str_digits)%Z ->
  py_int (Examples.nines (S k)) = Some (10 ^ Z.of_nat (S k) - 1)%Z.
Proof.
  intros Hk.
  unfold py_int; cbv zeta; rewrite strip_plain by apply nines_plain.
  rewrite nines_count.
  replace (max_str_digits <? Z.of_nat (S k))%Z with false by (symmetry; apply Z.ltb_ge, Hk).
  cbn [Examples.nines].
  change (Ascii.eqb "9" "-") with false; change (Ascii.eqb "9" "+") with false.
  cbv beta iota.
  change (String "9" (Examples.nines k)) with (Examples.nines (S k)).
  rewrite nines_digits_body; cbn [option_map]; f_equal.
  assert (Hp : (10 ^ N.of_nat (S k) <> 0)%N) by (apply N.pow_nonzero; discriminate).
  rewrite N.mul_1_l, N2Z.inj_sub by lia.
  rewrite N2Z.inj_pow, nat_N_Z; reflexivity.
Qed.

End PyFacts.

(** ** The merge loop *)

Module MergeFacts.

Lemma fold_step (ex : list string) (cands rs : list rule) (n : nat) (names : list string) :
  fold_left (step ex) cands (rs, n, names) =
  (rs ++ filter (keep ex) cands, n + length (filter (keep ex) cands),
   names ++ map name (filter (keep ex) cands))%list.
Proof.
  revert rs n names; induction cands as [|c cs IH]; intros rs n names; simpl.
  - now rewrite !app_nil_r, Nat.add_0_r.
  - unfold step at 1; destruct (keep ex c); rewrite IH; simpl.
    + now rewrite <- !app_assoc, Nat.add_succ_r.
    + reflexivity.
Qed.

Lemma scan_filter (ex : list string) (rs cands : list rule) :
  scan ex rs cands =
  (rs ++ filter (keep ex) cands, length (filter (keep ex) cands),
   map name (filter (keep ex) cands))%list.
Proof. unfold scan; now rewrite fold_step. Qed.

Definition default_version (cat : catalog) : string :=
  match version cat with Some v => v | None => "1.0" end.

Lemma merge_rules_eq (cat : catalog) (cands : list rule) :
  merge_rules cat cands =
  let app := filter (keep (existing_patterns (rules cat))) cands in
  if (0 <? length app)%nat then
    match bump_version (default_version cat) with
    | Err e => Err e
    | Ok v' => Ok (mk_catalog (Some v') (Some (updated_description (length app)))
                              (rules cat ++ app)%list, length app, map name app)
    end
  else Ok (mk_catalog (version cat) (cat_description cat) (rules cat ++ app)%list,
           length app, map name app).
Proof. unfold merge_rules; now rewrite scan_filter. Qed.

(** Lines 181-184 on a version [MAJOR.MINOR.rest] whose minor parses and
    whose incremented minor is below the conversion limit. *)
Lemma bump_version_ok (v ma mi : string) (rest : list string) (z : Z) :
  Py.split_dot v = ma :: mi :: rest -> Py.py_int mi = Some z ->
  (Z.abs (z + 1) < 10 ^ Py.max_str_digits)%Z ->
  bump_version v = Ok (Py.join_dot (ma :: Py.str_Z (z + 1) :: rest)).
Proof.
  intros Hs Hz Hl; unfold bump_version; rewrite Hs; cbn [nth_error]; rewrite Hz.
  rewrite PyFacts.py_str_Z_spec.
  replace (10 ^ Py.max_str_digits <=? Z.abs (z + 1))%Z with false
    by (symmetry; apply Z.leb_gt, Hl).
  reflexivity.
Qed.

(** The cases of [bump_version] on a version whose minor parses. *)
Lemma bump_version_parsed (v ma mi : string) (rest : list string) (z : Z) :
  Py.split_dot v = ma :: mi :: rest -> Py.py_int mi = Some z ->
  bump_version v =
  if (10 ^ Py.max_str_digits <=? Z.abs (z + 1))%Z then Err ValueError
  else Ok (Py.join_dot (ma :: Py.str_Z (z + 1) :: rest)).
Proof.
  intros Hs Hz.
  destruct (Z.leb_spec (10 ^ Py.max_str_digits) (Z.abs (z + 1))) as [Hl | Hl].
  - unfold bump_version; rewrite Hs; cbn [nth_error]; rewrite Hz.
    rewrite PyFacts.py_str_Z_spec.
    replace (10 ^ Py.max_str_digits <=? Z.abs (z + 1))%Z with true
      by (symmetry; apply Z.leb_le, Hl).
    reflexivity.
  - apply (bump_version_ok v ma mi rest z Hs Hz Hl).
Qed.

Lemma bump_version_split (v ma mi : string) (rest : list string) (z : Z) :
  Py.split_dot v = ma :: mi :: rest ->
  Py.split_dot (Py.join_dot (ma :: Py.str_Z (z + 1) :: rest)) = ma :: Py.str_Z (z + 1) :: rest.
Proof.
  intros Hs.
  pose proof (PyFacts.split_dot_components v) as Hc; rewrite Hs in Hc.
  inversion Hc as [|? ? Hma Hr]; inversion Hr as [|? ? _ Hrest]; subst.
  apply PyFacts.split_join; [discriminate|].
  constructor; [exact Hma|]. constructor; [apply PyFacts.str_Z_no_dot | exact Hrest].
Qed.

Lemma bump_version_err (v : string) :
  (exists e, bump_version v = Err e) <->
  (length (Py.split_dot v) < 2)%nat \/
  (exists p, nth_error (Py.split_dot v) 1 = Some p /\
     (Py.py_int p = None \/
      exists z, Py.py_int p = Some z /\ (10 ^ Py.max_str_digits <= Z.abs (z + 1))%Z)).
Proof.
  destruct (Py.split_dot v) as [|a [|b r]] eqn:Hs.
  - unfold bump_version; rewrite Hs; simpl.
    split; [intros _; left; lia | intros _; eauto].
  - unfold bump_version; rewrite Hs; simpl.
    split; [intros _; left; lia | intros _; eauto].
  - destruct (Py.py_int b) as [z|] eqn:Hb.
    + rewrite (bump_version_parsed v a b r z Hs Hb); cbn [nth_error length].
      destruct (Z.leb_spec (10 ^ Py.max_str_digits) (Z.abs (z + 1))) as [Hl | Hl].
      * split; [intros _; right; exists b; split; [reflexivity | right; eauto] | eauto].
      * split; [intros [e He]; discriminate|].
        intros [H | [p [Hp [Hn | (z' & Hz' & Hl')]]]]; [lia | congruence |].
        injection Hp as <-; rewrite Hb in Hz'; injection Hz' as <-; lia.
    + unfold bump_version; rewrite Hs; cbn [nth_error]; rewrite Hb.
      split; [intros _; right; eauto | intros _; eauto].
Qed.

(** What a successful [bump_version] did to its input. *)
Lemma bump_version_inv (v w : string) :
  bump_version v = Ok w ->
  exists ma mi rest z, Py.split_dot v = ma :: mi :: rest /\ Py.py_int mi = Some z /\
    (Z.abs (z + 1) < 10 ^ Py.max_str_digits)%Z /\
    w = Py.join_dot (ma :: Py.str_Z (z + 1) :: rest).
Proof.
  intros H.
  destruct (Py.split_dot v) as [|ma [|mi rest]] eqn:Hs;
    [unfold bump_version in H; rewrite Hs in H; simpl in H; discriminate ..|].
  destruct (Py.py_int mi) as [z|] eqn:Hz.
  - rewrite (bump_version_parsed v ma mi rest z Hs Hz) in H.
    destruct (Z.leb_spec (10 ^ Py.max_str_digits) (Z.abs (z + 1))) as [Hl | Hl]; [discriminate|].
    injection H as <-; exists ma, mi, rest, z; auto.
  - unfold bump_version in H; rewrite Hs in H; cbn [nth_error] in H; rewrite Hz in H.
    discriminate.
Qed.

Lemma in_existing_patterns (rs : list rule) (k : string) :
  In k (existing_patterns rs) <-> exists r p, In r rs /\ track_name r = Some p /\ find p = k.
Proof.
  induction rs as [|r rs IH]; simpl.
  - split; [intros [] | intros (r & p & [] & _)].
  - destruct (track_name r) as [p|] eqn:Ht; simpl; split.
    + intros [<- | H]; [exists r, p; auto|].
      apply IH in H as (r' & p' & ? & ? & ?); exists r', p'; auto.
    + intros (r' & p' & [<- | Hin] & Ht' & Hf).
      * left; congruence.
      * right; apply IH; eauto.
    + intros H; apply IH in H as (r' & p' & ? & ? & ?); exists r', p'; auto.
    + intros (r' & p' & [<- | Hin] & Ht' & Hf); [congruence|].
      apply IH; eauto.
Qed.

Lemma mem_In (k : string) (ks : list string) : mem k ks = true <-> In k ks.
Proof.
  unfold mem; rewrite existsb_exists; split.
  - intros (x & Hx & He); apply String.eqb_eq in He; now subst.
  - intros H; exists k; split; [exact H | apply String.eqb_refl].
Qed.

Lemma keep_spec (ex : list string) (c : rule) :
  keep ex c = true <-> exists k, pattern_key c = Some k /\ k <> EmptyString /\ ~ In k ex.
Proof.
  unfold keep; destruct (pattern_key c) as [k|]; split.
  - intros H; apply andb_prop in H as [Ht Hm].
    exists k; repeat split.
    + destruct k; [discriminate | congruence].
    + rewrite <- mem_In; destruct (mem k ex); [discriminate | congruence].
  - intros (k' & Hk & Hne & Hn); injection Hk as Hk; subst k'.
    destruct k as [|c' r']; [congruence|]; simpl.
    destruct (mem (String c' r') ex) eqn:Hm; [apply mem_In in Hm; contradiction | reflexivity].
  - discriminate.
  - intros (k & Hk & _); discriminate.
Qed.

Lemma catalog_eta (cat : catalog) : mk_catalog (version cat) (cat_description cat) (rules cat) = cat.
Proof. now destruct cat. Qed.

Lemma merge_rules_ok (cat : catalog) (cands : list rule)
  (cat' : catalog) (n : nat) (names : list string) :
  merge_rules cat cands = Ok (cat', n, names) ->
  let app := filter (keep (existing_patterns (rules cat))) cands in
  rules cat' = (rules cat ++ app)%list /\ n = length app /\ names = map name app.
Proof.
  rewrite merge_rules_eq; cbv zeta.
  destruct (0 <? _)%nat; [destruct bump_version|]; intros H; inversion H; subst; auto.
Qed.

Lemma merge_rules_nothing_new (cat : catalog) (cands : list rule) :
  filter (keep (existing_patterns (rules cat))) cands = [] ->
  merge_rules cat cands = Ok (cat, 0%nat, []).
Proof.
  intros H; rewrite merge_rules_eq; cbv zeta; rewrite H; simpl.
  now rewrite app_nil_r, catalog_eta.
Qed.

Lemma existing_patterns_app (rs1 rs2 : list rule) :
  existing_patterns (rs1 ++ rs2) = (existing_patterns rs1 ++ existing_patterns rs2)%list.
Proof.
  induction rs1 as [|r rs IH]; simpl; [reflexivity|].
  destruct (track_name r); simpl; now rewrite IH.
Qed.

Lemma catalog_of_json_truthy (j : json) (cat : catalog) :
  catalog_of_json j = Some cat -> truthy j = true.
Proof. destruct j as [| | | | |[|f fs]]; simpl; try discriminate; reflexivity. Qed.

End MergeFacts.

(** * The claims *)

Import Examples.

(** A witness for a theorem [thm] whose hypothesis is a successful merge:
    run the merge on the sample, then apply [thm] to its result. *)
Ltac merge_witness thm :=
  do 3 eexists;
  lazymatch goal with
  | |- merge_rules ?a ?b = Ok (?c, ?n, ?l) /\ _ =>
      split; [reflexivity | apply (thm a b c n l); reflexivity]
  end.

(** C3: append-only. The rules of the merged catalog are the original rules,
    unchanged and in place, followed by the candidates the loop keeps, each
    unchanged and in candidate order. *)
Theorem merge_rules_append_only (cat : catalog) (cands : list rule)
  (cat' : catalog) (n : nat) (names : list string) :
  merge_rules cat cands = Ok (cat', n, names) ->
  rules cat' = (rules cat ++ filter (keep (existing_patterns (rules cat))) cands)%list.
Proof.
  rewrite MergeFacts.merge_rules_eq; cbv zeta.
  destruct (0 <? _)%nat; [destruct bump_version|]; intros H; inversion H; reflexivity.
Qed.

Lemma merge_rules_append_only_witness :
  exists cat' n names,
    merge_rules scenario_a_catalog scenario_a_candidates = Ok (cat', n, names) /\
    rules cat' = (rules scenario_a_catalog ++
                  filter (keep (existing_patterns (rules scenario_a_catalog))) scenario_a_candidates)%list.
Proof.
  merge_witness merge_rules_append_only.
Defined.

(** C4 (corrected): the version ["1." ++ 4300 nines] is well formed, both
    components being accepted by [int()], yet a merge that adds a rule
    raises [ValueError]: [str()] refuses the 4301-digit minor [10 ^ 4300]. *)
Lemma minor_at_digit_limit_raises :
  Py.split_dot ("1." ++ nines 4300) = ["1"; nines 4300] /\
  Py.py_int "1" = Some 1%Z /\
  Py.py_int (nines 4300) = Some (10 ^ Py.max_str_digits - 1)%Z /\
  merge_rules (empty_catalog (Some ("1." ++ nines 4300))) scenario_a_candidates = Err ValueError.
Proof.
  assert (Hs : Py.split_dot ("1." ++ nines 4300) = ["1"; nines 4300]).
  { change ("1." ++ nines 4300)%string with ("1" ++ String "." (nines 4300))%string.
    rewrite PyFacts.split_dot_app by reflexivity.
    rewrite PyFacts.split_dot_no_dot; [reflexivity|].
    apply PyFacts.str_forall_plain_no_dot, PyFacts.nines_plain. }
  assert (Hm : Z.of_nat 4300 = Py.max_str_digits) by (vm_compute; reflexivity).
  assert (Hz : Py.py_int (nines 4300) = Some (10 ^ Py.max_str_digits - 1)%Z).
  { rewrite <- Hm; apply (PyFacts.nines_py_int 4299); rewrite Hm; apply Z.le_refl. }
  split; [exact Hs|]. split; [reflexivity|]. split; [exact Hz|].
  rewrite MergeFacts.merge_rules_eq; cbv zeta.
  change (filter (keep (existing_patterns (rules (empty_catalog (Some ("1." ++ nines 4300))))))
            scenario_a_candidates) with scenario_a_candidates.
  change (0 <? length scenario_a_candidates)%nat with true; cbv beta iota.
  change (MergeFacts.default_version (empty_catalog (Some ("1." ++ nines 4300))))
    with ("1." ++ nines 4300)%string.
  rewrite (MergeFacts.bump_version_parsed _ "1" (nines 4300) [] _ Hs Hz).
  assert (Hl : (10 ^ Py.max_str_digits <=? Z.abs (10 ^ Py.max_str_digits - 1 + 1))%Z = true).
  { apply Z.leb_le.
    rewrite Z.sub_add, Z.abs_eq; [apply Z.le_refl|].
    apply Z.pow_nonneg; discriminate. }
  rewrite Hl.
  reflexivity.
Qed.

(** C4, as the code does it: on a catalog whose version is [MAJOR.MINOR]
    with both components accepted by [int()], the merge succeeds exactly
    when nothing is added or the incremented minor is below [10 ^ 4300]
    (at most 4300 digits). A successful merge keeps the major component,
    keeps the minor one when nothing is added, and writes one that [int()]
    reads as the old minor plus one when something is added. *)
Theorem merge_rules_version_monotone (cat : catalog) (cands : list rule)
  (v ma mi : string) (zma zmi : Z) :
  version cat = Some v -> Py.split_dot v = [ma; mi] ->
  Py.py_int ma = Some zma -> Py.py_int mi = Some zmi ->
  ((exists r, merge_rules cat cands = Ok r) <->
   length (filter (keep (existing_patterns (rules cat))) cands) = 0%nat \/
   (Z.abs (zmi + 1) < 10 ^ Py.max_str_digits)%Z) /\
  (forall cat' n names, merge_rules cat cands = Ok (cat', n, names) ->
   exists v' mi', version cat' = Some v' /\ Py.split_dot v' = [ma; mi'] /\
     (n = 0%nat -> mi' = mi) /\ ((0 < n)%nat -> Py.py_int mi' = Some (zmi + 1)%Z)).
Proof.
  intros Hv Hs _ Hmi.
  rewrite MergeFacts.merge_rules_eq; cbv zeta.
  unfold MergeFacts.default_version; rewrite Hv.
  rewrite (MergeFacts.bump_version_parsed v ma mi [] zmi Hs Hmi).
  destruct (Nat.ltb_spec 0 (length (filter (keep (existing_patterns (rules cat))) cands)))
    as [Hn | Hn].
  - destruct (Z.leb_spec (10 ^ Py.max_str_digits) (Z.abs (zmi + 1))) as [Hl | Hl].
    + split.
      * split; [intros [r Hr]; discriminate | intros [H | H]; lia].
      * intros cat' n names H; discriminate.
    + split.
      * split; [intros _; right; exact Hl | intros _; eexists; reflexivity].
      * intros cat' n names H; injection H as <- <- <-.
        exists (Py.join_dot [ma; Py.str_Z (zmi + 1)]), (Py.str_Z (zmi + 1)).
        split; [reflexivity|].
        split; [apply (MergeFacts.bump_version_split v ma mi [] zmi Hs)|].
        split; [intros H; lia | intros _; apply PyFacts.py_int_str_Z, Hl].
  - split.
    + split; [intros _; left; lia | intros _; eexists; reflexivity].
    + intros cat' n names H; injection H as <- <- <-.
      exists v, mi; split; [reflexivity|]. split; [exact Hs|].
      split; [reflexivity | intros H; lia].
Qed.

Lemma merge_rules_version_monotone_witness :
  ((exists r, merge_rules scenario_a_catalog scenario_a_candidates = Ok r) <->
   length (filter (keep (existing_patterns (rules scenario_a_catalog))) scenario_a_candidates) = 0%nat \/
   (Z.abs (2 + 1) < 10 ^ Py.max_str_digits)%Z) /\
  (forall cat' n names, merge_rules scenario_a_catalog scenario_a_candidates = Ok (cat', n, names) ->
   exists v' mi', version cat' = Some v' /\ Py.split_dot v' = ["1"; mi'] /\
     (n = 0%nat -> mi' = "2") /\ ((0 < n)%nat -> Py.py_int mi' = Some (2 + 1)%Z)).
Proof.
  apply (merge_rules_version_monotone scenario_a_catalog scenario_a_candidates "1.2" "1" "2" 1 2);
    vm_compute; reflexivity.
Defined.

(** C5: deduplication is keyed on [track_name.find] only. A string is an
    existing key exactly when it is the [find] of a catalog rule with a
    [track_name] pattern spec, and a candidate whose key (track or album)
    is an existing key, in particular one whose [track_name.find] is the
    [track_name.find] of a catalog rule, is not among the appended rules. *)
Theorem merge_rules_dedup_track_keys (cat : catalog) (cands : list rule)
  (cat' : catalog) (n : nat) (names : list string) :
  merge_rules cat cands = Ok (cat', n, names) ->
  (forall k, In k (existing_patterns (rules cat)) <->
             exists r p, In r (rules cat) /\ track_name r = Some p /\ find p = k) /\
  exists app, rules cat' = (rules cat ++ app)%list /\
    (forall c k, pattern_key c = Some k -> In k (existing_patterns (rules cat)) -> ~ In c app) /\
    (forall c p, track_name c = Some p ->
       (exists r q, In r (rules cat) /\ track_name r = Some q /\ find q = find p) -> ~ In c app).
Proof.
  intros H.
  split; [intros k; apply MergeFacts.in_existing_patterns|].
  exists (filter (keep (existing_patterns (rules cat))) cands).
  split; [exact (proj1 (MergeFacts.merge_rules_ok _ _ _ _ _ H))|].
  assert (Hno : forall c k, pattern_key c = Some k -> In k (existing_patterns (rules cat)) ->
                ~ In c (filter (keep (existing_patterns (rules cat))) cands)).
  { intros c k Hk Hin Hc. apply filter_In in Hc as [_ Hkeep].
    apply MergeFacts.keep_spec in Hkeep as (k' & Hk' & _ & Hnot).
    rewrite Hk in Hk'; injection Hk' as <-; contradiction. }
  split; [exact Hno|].
  intros c p Ht Hex. apply (Hno c (find p)).
  - unfold pattern_key; now rewrite Ht.
  - now apply MergeFacts.in_existing_patterns.
Qed.

Lemma merge_rules_dedup_track_keys_witness :
  exists cat' n names,
    merge_rules scenario_a_catalog scenario_a_candidates = Ok (cat', n, names) /\
    ((forall k, In k (existing_patterns (rules scenario_a_catalog)) <->
                exists r p, In r (rules scenario_a_catalog) /\ track_name r = Some p /\ find p = k) /\
     exists app, rules cat' = (rules scenario_a_catalog ++ app)%list /\
       (forall c k, pattern_key c = Some k -> In k (existing_patterns (rules scenario_a_catalog)) ->
                    ~ In c app) /\
       (forall c p, track_name c = Some p ->
          (exists r q, In r (rules scenario_a_catalog) /\ track_name r = Some q /\ find q = find p) ->
          ~ In c app)).
Proof.
  merge_witness merge_rules_dedup_track_keys.
Defined.

(** C8: description update. When at least one rule is added the
    description is exactly the fixed template with the added count; when
    none is added the catalog (version and description included) is
    returned unchanged. *)
Theorem merge_rules_description (cat : catalog) (cands : list rule)
  (cat' : catalog) (n : nat) (names : list string) :
  merge_rules cat cands = Ok (cat', n, names) ->
  ((0 < n)%nat ->
   cat_description cat' =
   Some ("Comprehensive set of rewrite rules to remove remaster information from track and album names, based on analysis of 600+ real Last.fm tracks. Updated with "
         ++ Py.str_nat n ++ " additional patterns.")) /\
  (n = 0%nat -> cat' = cat).
Proof.
  rewrite MergeFacts.merge_rules_eq; cbv zeta.
  destruct (Nat.ltb_spec 0 (length (filter (keep (existing_patterns (rules cat))) cands))) as [Hn | Hn].
  - destruct bump_version as [v'|e]; intros H; inversion H; subst.
    split; [reflexivity | intros; lia].
  - intros H; inversion H; subst.
    assert (Hnil : filter (keep (existing_patterns (rules cat))) cands = []).
    { apply length_zero_iff_nil; lia. }
    split; [intros; lia|].
    intros _; rewrite Hnil, app_nil_r; apply MergeFacts.catalog_eta.
Qed.

Lemma merge_rules_description_witness :
  exists cat' n names,
    merge_rules scenario_a_catalog scenario_a_candidates = Ok (cat', n, names) /\
    ((0 < n)%nat ->
     cat_description cat' =
     Some ("Comprehensive set of rewrite rules to remove remaster information from track and album names, based on analysis of 600+ real Last.fm tracks. Updated with "
           ++ Py.str_nat n ++ " additional patterns.")) /\
    (n = 0%nat -> cat' = scenario_a_catalog).
Proof.
  merge_witness merge_rules_description.
Defined.

(** C9: a loaded value that is falsy in Python ([None] from a missing
    file, but also [{}], [[]], [""], [0], [false] or [null]) makes the
    entry point return before the merge: no scan, no append, no version
    change and no save. *)
Theorem falsy_document_aborts (cands : list rule) (j : json) :
  truthy j = false ->
  analyze_and_update_with cands (Some j) = Aborted /\ analyze_and_update_with cands None = Aborted.
Proof. intros H; simpl; rewrite H; split; reflexivity. Qed.

Lemma falsy_document_aborts_witness :
  truthy (JObj []) = false /\
  analyze_and_update (Some (JObj [])) = Aborted /\ analyze_and_update None = Aborted.
Proof.
  split; [reflexivity|].
  apply (falsy_document_aborts additional_patterns (JObj [])); reflexivity.
Defined.

(** C10: on a version with more than two components and at least one rule
    added, only the second component is replaced (by the old one plus one)
    and the components after it are kept, e.g. ["1.2.3"] becomes
    ["1.3.3"]. Every successful merge that adds a rule does so, and the
    merge succeeds whenever the second component is accepted by [int()]
    and its successor is below [10 ^ 4300]. *)
Theorem merge_rules_version_keeps_rest (cat : catalog) (cands : list rule)
  (v ma mi : string) (rest : list string) :
  version cat = Some v -> Py.split_dot v = ma :: mi :: rest ->
  (forall cat' n names, merge_rules cat cands = Ok (cat', n, names) -> (0 < n)%nat ->
   exists z, Py.py_int mi = Some z /\
     version cat' = Some (Py.join_dot (ma :: Py.str_Z (z + 1) :: rest)) /\
     Py.split_dot (Py.join_dot (ma :: Py.str_Z (z + 1) :: rest)) = ma :: Py.str_Z (z + 1) :: rest) /\
  (forall z, Py.py_int mi = Some z -> (Z.abs (z + 1) < 10 ^ Py.max_str_digits)%Z ->
   (0 < length (filter (keep (existing_patterns (rules cat))) cands))%nat ->
   exists cat' n names, merge_rules cat cands = Ok (cat', n, names) /\ (0 < n)%nat /\
     version cat' = Some (Py.join_dot (ma :: Py.str_Z (z + 1) :: rest))).
Proof.
  intros Hv Hs.
  rewrite MergeFacts.merge_rules_eq; cbv zeta.
  unfold MergeFacts.default_version; rewrite Hv.
  split.
  - intros cat' n names.
    destruct (Nat.ltb_spec 0 (length (filter (keep (existing_patterns (rules cat))) cands)))
      as [Hn | Hn].
    + destruct (bump_version v) as [w|e] eqn:Hb; intros H Hp; [|discriminate].
      injection H as <- <- <-.
      destruct (MergeFacts.bump_version_inv v w Hb) as (ma' & mi' & rest' & z & Hs' & Hz & _ & ->).
      rewrite Hs in Hs'; injection Hs' as <- <- <-.
      exists z; split; [exact Hz|]. split; [reflexivity|].
      apply (MergeFacts.bump_version_split v ma mi rest z Hs).
    + intros H Hp; injection H as _ <- _; lia.
  - intros z Hz Hl Hn.
    rewrite (MergeFacts.bump_version_ok v ma mi rest z Hs Hz Hl).
    apply Nat.ltb_lt in Hn; rewrite Hn; apply Nat.ltb_lt in Hn.
    do 3 eexists; split; [reflexivity|]. split; [exact Hn | reflexivity].
Qed.

Lemma merge_rules_version_keeps_rest_witness :
  ((forall cat' n names, merge_rules three_part_catalog hd_candidates = Ok (cat', n, names) ->
    (0 < n)%nat ->
    exists z, Py.py_int "2" = Some z /\
      version cat' = Some (Py.join_dot ("1" :: Py.str_Z (z + 1) :: ["3"])) /\
      Py.split_dot (Py.join_dot ("1" :: Py.str_Z (z + 1) :: ["3"])) = "1" :: Py.str_Z (z + 1) :: ["3"]) /\
   (forall z, Py.py_int "2" = Some z -> (Z.abs (z + 1) < 10 ^ Py.max_str_digits)%Z ->
    (0 < length (filter (keep (existing_patterns (rules three_part_catalog))) hd_candidates))%nat ->
    exists cat' n names, merge_rules three_part_catalog hd_candidates = Ok (cat', n, names) /\
      (0 < n)%nat /\ version cat' = Some (Py.join_dot ("1" :: Py.str_Z (z + 1) :: ["3"])))) /\
  Py.join_dot ("1" :: Py.str_Z (2 + 1) :: ["3"]) = "1.3.3".
Proof.
  split; [|reflexivity].
  apply (merge_rules_version_keeps_rest three_part_catalog hd_candidates "1.2.3" "1" "2" ["3"]);
    reflexivity.
Defined.

(** C1 (corrected): re-running the merge on its own output with the same
    candidates re-appends the album-name candidates, whose keys never enter
    the key set: from an empty catalog, the candidate list of the script is
    merged with 12 additions, and the second run adds 3 more. *)
Lemma rerun_readds_album_rules :
  match merge_rules (empty_catalog (Some "1.0")) additional_patterns with
  | Ok (c1, _, _) =>
      match merge_rules c1 additional_patterns with
      | Ok (c2, n2, _) => n2 = 3%nat /\ c2 <> c1
      | Err _ => False
      end
  | Err _ => False
  end.
Proof.
  vm_compute; split; [reflexivity|].
  intros H; apply (f_equal (fun c => length (rules c))) in H; vm_compute in H; discriminate.
Qed.

(** C1, as the code does it: after a successful merge, a second run on its
    output with the same candidates appends no candidate that has a
    [track_name] pattern spec; when no album-name-only candidate is kept by
    the key set of the output, the second run adds nothing and returns the
    catalog unchanged. *)
Theorem merge_rules_rerun (cat : catalog) (cands : list rule)
  (c1 : catalog) (n1 : nat) (l1 : list string) :
  merge_rules cat cands = Ok (c1, n1, l1) ->
  (forall c, In c cands -> keep (existing_patterns (rules c1)) c = true -> track_name c = None) /\
  ((forall c, In c cands -> track_name c = None -> keep (existing_patterns (rules c1)) c = false) ->
   merge_rules c1 cands = Ok (c1, 0%nat, [])).
Proof.
  intros H.
  destruct (MergeFacts.merge_rules_ok _ _ _ _ _ H) as (Hr & _ & _); cbv zeta in Hr.
  assert (Htrack : forall c, In c cands -> keep (existing_patterns (rules c1)) c = true ->
                             track_name c = None).
  { intros c Hin Hk.
    destruct (track_name c) as [p|] eqn:Ht; [exfalso|reflexivity].
    apply MergeFacts.keep_spec in Hk as (k & Hkey & Hne & Hnot).
    unfold pattern_key in Hkey; rewrite Ht in Hkey; injection Hkey as <-.
    apply Hnot; rewrite Hr, MergeFacts.existing_patterns_app; apply in_or_app.
    destruct (keep (existing_patterns (rules cat)) c) eqn:Hk0.
    - right; apply MergeFacts.in_existing_patterns.
      exists c, p; repeat split; [apply filter_In; auto | exact Ht].
    - left. destruct (in_dec String.string_dec (find p) (existing_patterns (rules cat))) as [Hi|Hi];
        [exact Hi|].
      exfalso; apply Bool.not_true_iff_false in Hk0; apply Hk0, MergeFacts.keep_spec.
      exists (find p); repeat split; [unfold pattern_key; now rewrite Ht | exact Hne | exact Hi]. }
  split; [exact Htrack|].
  intros Halb; apply MergeFacts.merge_rules_nothing_new.
  destruct (filter (keep (existing_patterns (rules c1))) cands) as [|c r] eqn:Hf; [reflexivity|].
  exfalso.
  assert (Hc : In c (filter (keep (existing_patterns (rules c1))) cands)) by (rewrite Hf; left; reflexivity).
  apply filter_In in Hc as [Hin Hk].
  rewrite (Halb c Hin (Htrack c Hin Hk)) in Hk; discriminate.
Qed.

Lemma merge_rules_rerun_witness :
  exists c1 n1 l1,
    merge_rules (empty_catalog (Some "1.0")) scenario_a_candidates = Ok (c1, n1, l1) /\
    (forall c, In c scenario_a_candidates -> keep (existing_patterns (rules c1)) c = true ->
               track_name c = None) /\
    ((forall c, In c scenario_a_candidates -> track_name c = None ->
                keep (existing_patterns (rules c1)) c = false) ->
     merge_rules c1 scenario_a_candidates = Ok (c1, 0%nat, [])).
Proof.
  merge_witness merge_rules_rerun.
Defined.

(** C2 (corrected): a missing version field is defaulted to ["1.0"], and
    only the second component is parsed: [{"rules": []}] merged with the
    script's candidates is saved with version ["1.1"], and a catalog with
    version ["a.2"] is saved with version ["a.3"]. *)
Lemma version_fallback_and_unchecked_major :
  match analyze_and_update (Some (JObj [("rules", JArr [])])) with
  | Finished (Some c) _ => version c = Some "1.1"
  | _ => False
  end /\
  match analyze_and_update (Some (json_catalog "a.2")) with
  | Finished (Some c) _ => version c = Some "a.3"
  | _ => False
  end.
Proof. split; vm_compute; reflexivity. Qed.

(** C2, as the code does it: for a catalog and a merge that adds at least
    one rule, a missing version is taken as ["1.0"]; the invocation then
    raises, before any save, exactly when that version has fewer than two
    dot-separated components, its second component is not accepted by
    [int()], or the successor of that component has more than 4300 digits
    (refused by [str()]); the other components are not checked. *)
Theorem version_error_condition (cands : list rule) (cat : catalog) :
  (0 < length (filter (keep (existing_patterns (rules cat))) cands))%nat ->
  let v := match version cat with Some v => v | None => "1.0" end in
  (exists e, update_catalog cands cat = Raised e) <->
  (length (Py.split_dot v) < 2)%nat \/
  (exists p, nth_error (Py.split_dot v) 1 = Some p /\
     (Py.py_int p = None \/
      exists z, Py.py_int p = Some z /\ (10 ^ Py.max_str_digits <= Z.abs (z + 1))%Z)).
Proof.
  intros Hn v.
  rewrite <- MergeFacts.bump_version_err.
  unfold update_catalog.
  rewrite MergeFacts.merge_rules_eq; cbv zeta.
  apply Nat.ltb_lt in Hn; rewrite Hn.
  change (MergeFacts.default_version cat) with v.
  destruct (bump_version v) as [v'|e].
  - split; intros [e He]; [rewrite Hn in He|]; discriminate.
  - split; intros _; exists e; reflexivity.
Qed.

Lemma version_error_condition_witness :
  let v := match version (empty_catalog (Some "1")) with Some v => v | None => "1.0" end in
  (exists e, update_catalog additional_patterns (empty_catalog (Some "1")) = Raised e) <->
  (length (Py.split_dot v) < 2)%nat \/
  (exists p, nth_error (Py.split_dot v) 1 = Some p /\
     (Py.py_int p = None \/
      exists z, Py.py_int p = Some z /\ (10 ^ Py.max_str_digits <= Z.abs (z + 1))%Z)).
Proof.
  apply (version_error_condition additional_patterns (empty_catalog (Some "1"))).
  vm_compute; lia.
Defined.

(** C6 (corrected): two distinct candidates with the empty key [""] are
    both skipped, since an empty key is falsy. *)
Lemma empty_key_pair_not_added :
  match merge_rules (empty_catalog (Some "1.0")) [track_rule "A" ""; track_rule "B" ""] with
  | Ok (c, n, _) => n = 0%nat /\ rules c = []
  | Err _ => False
  end.
Proof. vm_compute; split; reflexivity. Qed.

(** C6, as the code does it: two candidates sharing a non-empty key that is
    not in the existing key set are both appended, at their places in
    candidate order, and the pair adds 2 to the count. *)
Theorem batch_duplicates_both_added (cat : catalog) (pre mid post : list rule)
  (c1 c2 : rule) (k : string) (cat' : catalog) (n : nat) (names : list string) :
  pattern_key c1 = Some k -> pattern_key c2 = Some k -> k <> EmptyString ->
  ~ In k (existing_patterns (rules cat)) ->
  merge_rules cat (pre ++ c1 :: mid ++ c2 :: post)%list = Ok (cat', n, names) ->
  let f := filter (keep (existing_patterns (rules cat))) in
  rules cat' = (rules cat ++ f pre ++ c1 :: f mid ++ c2 :: f post)%list /\
  n = (length (f (pre ++ mid ++ post)%list) + 2)%nat.
Proof.
  intros H1 H2 Hne Hnot H f.
  assert (K1 : keep (existing_patterns (rules cat)) c1 = true)
    by (apply MergeFacts.keep_spec; eauto).
  assert (K2 : keep (existing_patterns (rules cat)) c2 = true)
    by (apply MergeFacts.keep_spec; eauto).
  destruct (MergeFacts.merge_rules_ok _ _ _ _ _ H) as (Hr & Hn & _); cbv zeta in Hr, Hn.
  subst f; rewrite !filter_app in *; simpl in Hr, Hn; rewrite filter_app in Hr, Hn.
  simpl in Hr, Hn; rewrite K1, K2 in Hr, Hn; simpl in Hn.
  split; [exact Hr|].
  rewrite Hn; rewrite !length_app; simpl; rewrite !length_app; simpl; lia.
Qed.

Lemma batch_duplicates_both_added_witness :
  exists cat' n names,
    merge_rules (empty_catalog (Some "1.0"))
      ([] ++ track_rule "A" "k" :: [] ++ track_rule "B" "k" :: [])%list = Ok (cat', n, names) /\
    (let f := filter (keep (existing_patterns (rules (empty_catalog (Some "1.0"))))) in
     rules cat' = (rules (empty_catalog (Some "1.0")) ++ f [] ++ track_rule "A" "k" :: f [] ++
                   track_rule "B" "k" :: f [])%list /\
     n = (length (f ([] ++ [] ++ [])%list) + 2)%nat).
Proof.
  do 3 eexists.
  lazymatch goal with
  | |- merge_rules _ _ = Ok (?c, ?n, ?l) /\ _ =>
      split; [reflexivity|];
      apply (batch_duplicates_both_added (empty_catalog (Some "1.0")) [] [] [] (track_rule "A" "k")
               (track_rule "B" "k") "k" c n l);
      [reflexivity | reflexivity | discriminate | simpl; tauto | reflexivity]
  end.
Defined.

(** C7 (corrected): a candidate whose key is the empty string is skipped
    although it has a [track_name] and its key is not in the key set. *)
Lemma empty_key_candidate_skipped :
  keep (existing_patterns []) (track_rule "Empty" "") = false /\
  match merge_rules (empty_catalog (Some "1.0")) [track_rule "Empty" ""] with
  | Ok (c, n, _) => n = 0%nat /\ rules c = []
  | Err _ => False
  end.
Proof. vm_compute; repeat split. Qed.

(** C7, as the code does it: one iteration of the loop leaves its state
    [(rules, count, added names)] unchanged exactly when the candidate's key
    ([track_name.find], else [album_name.find]) is absent, empty, or in the
    key set; otherwise it appends the candidate unchanged, records its name
    and increments the count. *)
Theorem step_skip_or_append (ex : list string) (rs : list rule) (n : nat)
  (names : list string) (c : rule) :
  (step ex (rs, n, names) c = (rs, n, names) <->
   pattern_key c = None \/ pattern_key c = Some EmptyString \/
   exists k, pattern_key c = Some k /\ In k ex) /\
  (forall k, pattern_key c = Some k -> k <> EmptyString -> ~ In k ex ->
   step ex (rs, n, names) c = ((rs ++ [c])%list, S n, (names ++ [name c])%list)).
Proof.
  split.
  - unfold step; destruct (keep ex c) eqn:Hk.
    + apply MergeFacts.keep_spec in Hk as (k & Hkey & Hne & Hnot).
      split; [intros H; injection H; lia|].
      rewrite Hkey; intros [H | [H | (k' & H & Hin)]]; try discriminate.
      * injection H; congruence.
      * injection H as <-; contradiction.
    + split; [intros _|intros _; reflexivity].
      unfold keep in Hk; destruct (pattern_key c) as [k|]; [|left; reflexivity].
      right; destruct k as [|a r]; [left; reflexivity|right].
      exists (String a r); split; [reflexivity|].
      apply MergeFacts.mem_In; simpl in Hk.
      destruct (mem (String a r) ex); [reflexivity | discriminate].
  - intros k Hkey Hne Hnot; unfold step.
    replace (keep ex c) with true; [reflexivity|].
    symmetry; apply MergeFacts.keep_spec; eauto.
Qed.

(** * Further properties of [analyze_and_update] *)

Module Extra.
Import MergeFacts.

(** Lines 157-195 after loading: when an invocation on a loaded catalog
    finishes, it saves the catalog exactly when at least one rule was
    reported as added; a run that adds nothing saves nothing. *)
Theorem save_iff_added (cands : list rule) (cat : catalog) (saved : option catalog)
  (names : list string) :
  update_catalog cands cat = Finished saved names ->
  (saved <> None <-> names <> []).
Proof.
  unfold update_catalog.
  destruct (merge_rules cat cands) as [[[c n] l]|e] eqn:Hm; [|discriminate].
  destruct (merge_rules_ok _ _ _ _ _ Hm) as (_ & Hn & Hl); cbv zeta in Hn, Hl.
  destruct (Nat.ltb_spec 0 n) as [Hp | Hp]; intros H; injection H as <- <-.
  - split; [intros _ | intros _; discriminate].
    rewrite Hl; intros Hnil; apply map_eq_nil in Hnil; rewrite Hnil in Hn; simpl in Hn; lia.
  - assert (Hnil : filter (keep (existing_patterns (rules cat))) cands = [])
      by (apply length_zero_iff_nil; lia).
    rewrite Hl, Hnil; simpl; split; intros H; contradiction.
Qed.

Lemma save_iff_added_witness :
  exists saved names,
    update_catalog additional_patterns (empty_catalog (Some "1.0")) = Finished saved names /\
    (saved <> None <-> names <> []).
Proof.
  do 2 eexists.
  lazymatch goal with
  | |- update_catalog ?c ?k = Finished ?s ?n /\ _ =>
      split; [reflexivity | apply (save_iff_added c k s n); reflexivity]
  end.
Defined.

(** Lines 177 and 189-190: the names printed as added are the names of the
    appended rules in append order, their number is the added count, and
    the total printed is the old rule count plus the added count. *)
Theorem merge_rules_added_names (cat : catalog) (cands : list rule)
  (cat' : catalog) (n : nat) (names : list string) :
  merge_rules cat cands = Ok (cat', n, names) ->
  names = map name (skipn (length (rules cat)) (rules cat')) /\
  n = length names /\
  length (rules cat') = (length (rules cat) + n)%nat.
Proof.
  intros H; destruct (merge_rules_ok _ _ _ _ _ H) as (Hr & Hn & Hl); cbv zeta in *.
  rewrite Hr, skipn_app, skipn_all, Nat.sub_diag; simpl.
  split; [exact Hl|]. split; [now rewrite Hl, length_map|].
  now rewrite length_app, Hn.
Qed.

Lemma merge_rules_added_names_witness :
  exists cat' n names,
    merge_rules scenario_a_catalog scenario_a_candidates = Ok (cat', n, names) /\
    (names = map name (skipn (length (rules scenario_a_catalog)) (rules cat')) /\
     n = length names /\ length (rules cat') = (length (rules scenario_a_catalog) + n)%nat).
Proof. merge_witness merge_rules_added_names. Defined.

(** Lines 167-176: the loop never adds more rules than there are
    candidates, and an empty candidate list returns the catalog unchanged
    with nothing added (whatever its version, even a malformed one). *)
Theorem merge_rules_bounded (cat : catalog) (cands : list rule) :
  merge_rules cat [] = Ok (cat, 0%nat, []) /\
  forall cat' n names, merge_rules cat cands = Ok (cat', n, names) -> (n <= length cands)%nat.
Proof.
  split; [now apply merge_rules_nothing_new|].
  intros cat' n names H; destruct (merge_rules_ok _ _ _ _ _ H) as (_ & Hn & _); cbv zeta in Hn.
  rewrite Hn; apply filter_length_le.
Qed.

(** Lines 160-176: the key set of the merged catalog is the old key set
    together with the [track_name.find] of the appended track-name
    candidates; no existing key is lost. *)
Theorem merge_rules_keys_grow (cat : catalog) (cands : list rule)
  (cat' : catalog) (n : nat) (names : list string) :
  merge_rules cat cands = Ok (cat', n, names) ->
  forall k, In k (existing_patterns (rules cat')) <->
    In k (existing_patterns (rules cat)) \/
    exists c p, In c cands /\ keep (existing_patterns (rules cat)) c = true /\
                track_name c = Some p /\ find p = k.
Proof.
  intros H k; destruct (merge_rules_ok _ _ _ _ _ H) as (Hr & _ & _); cbv zeta in Hr.
  rewrite Hr, existing_patterns_app, in_app_iff.
  rewrite (in_existing_patterns (filter _ _)).
  split.
  - intros [Hk | (c & p & Hc & Ht & Hf)]; [now left|].
    apply filter_In in Hc as [Hc Hkp]; right; exists c, p; auto.
  - intros [Hk | (c & p & Hc & Hkp & Ht & Hf)]; [now left|].
    right; exists c, p; repeat split; auto; apply filter_In; auto.
Qed.

Lemma merge_rules_keys_grow_witness :
  exists cat' n names,
    merge_rules scenario_a_catalog scenario_a_candidates = Ok (cat', n, names) /\
    (forall k, In k (existing_patterns (rules cat')) <->
      In k (existing_patterns (rules scenario_a_catalog)) \/
      exists c p, In c scenario_a_candidates /\
                  keep (existing_patterns (rules scenario_a_catalog)) c = true /\
                  track_name c = Some p /\ find p = k).
Proof. merge_witness merge_rules_keys_grow. Defined.

(** Lines 182-183: the bump raises [IndexError] exactly when the version
    has fewer than two dot-separated components, and [ValueError] exactly
    when it has two or more and the second is not accepted by [int()] or
    its successor has more than 4300 decimal digits (refused by [str()]). *)
Theorem bump_version_errors (v : string) :
  (bump_version v = Err IndexError <-> (length (Py.split_dot v) < 2)%nat) /\
  (bump_version v = Err ValueError <->
   exists p, nth_error (Py.split_dot v) 1 = Some p /\
     (Py.py_int p = None \/
      exists z, Py.py_int p = Some z /\ (10 ^ Py.max_str_digits <= Z.abs (z + 1))%Z)) /\
  bump_version v <> Err DecodeError.
Proof.
  destruct (Py.split_dot v) as [|ma [|mi rest]] eqn:Hs.
  - unfold bump_version; rewrite Hs; simpl.
    split; [split; [lia | reflexivity]|].
    split; [split; [discriminate | intros (p & Hp & _); discriminate] | discriminate].
  - unfold bump_version; rewrite Hs; simpl.
    split; [split; [lia | reflexivity]|].
    split; [split; [discriminate | intros (p & Hp & _); discriminate] | discriminate].
  - destruct (Py.py_int mi) as [z|] eqn:Hz.
    + rewrite (bump_version_parsed v ma mi rest z Hs Hz); cbn [nth_error length].
      destruct (Z.leb_spec (10 ^ Py.max_str_digits) (Z.abs (z + 1))) as [Hl | Hl].
      * split; [split; [discriminate | lia]|].
        split; [|discriminate].
        split; [intros _; exists mi; split; [reflexivity | right; eauto] | reflexivity].
      * split; [split; [discriminate | lia]|].
        split; [|discriminate].
        split; [discriminate|].
        intros (p & Hp & [Hn | (z' & Hz' & Hl')]); injection Hp as <-; [congruence|].
        rewrite Hz in Hz'; injection Hz' as <-; lia.
    + unfold bump_version; rewrite Hs; cbn [nth_error length]; rewrite Hz.
      split; [split; [discriminate | lia]|].
      split; [split; [intros _; eauto | reflexivity] | discriminate].
Qed.

(** Line 183: the new minor component is [str(int(minor) + 1)], so it is
    written in canonical decimal form whatever spelling [int()] accepted
    (leading zeros, surrounding whitespace, a sign, underscores), and it
    parses back to the old value plus one; this holds whenever the
    successor is below [10 ^ 4300], the bound of [str()]. *)
Theorem bump_version_canonical_minor (v ma mi : string) (rest : list string) (z : Z) :
  Py.split_dot v = ma :: mi :: rest -> Py.py_int mi = Some z ->
  (Z.abs (z + 1) < 10 ^ Py.max_str_digits)%Z ->
  exists w, bump_version v = Ok w /\
    Py.split_dot w = ma :: Py.str_Z (z + 1) :: rest /\
    Py.py_int (Py.str_Z (z + 1)) = Some (z + 1)%Z /\
    Py.str_forall Py.plain_char (Py.str_Z (z + 1)) = true.
Proof.
  intros Hs Hz Hl; exists (Py.join_dot (ma :: Py.str_Z (z + 1) :: rest)).
  split; [exact (bump_version_ok v ma mi rest z Hs Hz Hl)|].
  split; [exact (bump_version_split v ma mi rest z Hs)|].
  split; [apply PyFacts.py_int_str_Z, Hl | apply PyFacts.str_Z_plain].
Qed.

Lemma bump_version_canonical_minor_witness :
  (exists w, bump_version "1.09" = Ok w /\
    Py.split_dot w = "1" :: Py.str_Z (9 + 1) :: [] /\
    Py.py_int (Py.str_Z (9 + 1)) = Some (9 + 1)%Z /\
    Py.str_forall Py.plain_char (Py.str_Z (9 + 1)) = true) /\
  bump_version "1.09" = Ok "1.10" /\ bump_version "2. 1_0" = Ok "2.11".
Proof.
  split; [|split; reflexivity].
  apply (bump_version_canonical_minor "1.09" "1" "09" [] 9); vm_compute; reflexivity.
Defined.

(** Lines 179-186 composed with a later run: after a merge that added
    rules, the saved version is [MAJOR.str(z).rest], where [int()] reads
    the written minor back as [z]; the bump of the next run fails with
    [ValueError] exactly when [z + 1] reaches [10 ^ 4300], and otherwise
    writes [str(z + 1)] in the same place. *)
Theorem saved_version_rebumpable (cat : catalog) (cands : list rule)
  (cat' : catalog) (n : nat) (names : list string) :
  merge_rules cat cands = Ok (cat', n, names) -> (0 < n)%nat ->
  exists v' ma z rest, version cat' = Some v' /\
    Py.split_dot v' = ma :: Py.str_Z z :: rest /\
    Py.py_int (Py.str_Z z) = Some z /\
    bump_version v' =
      if (10 ^ Py.max_str_digits <=? Z.abs (z + 1))%Z then Err ValueError
      else Ok (Py.join_dot (ma :: Py.str_Z (z + 1) :: rest)).
Proof.
  intros H Hn.
  revert H; rewrite merge_rules_eq; cbv zeta.
  destruct (Nat.ltb_spec 0 (length (filter (keep (existing_patterns (rules cat))) cands)))
    as [Hp | Hp].
  - destruct (bump_version (default_version cat)) as [w|e] eqn:Hb; intros H; inversion H; subst.
    destruct (bump_version_inv _ _ Hb) as (ma & mi & rest & z & Hs & Hz & Hl & ->).
    exists (Py.join_dot (ma :: Py.str_Z (z + 1) :: rest)), ma, (z + 1)%Z, rest.
    split; [reflexivity|].
    pose proof (bump_version_split _ ma mi rest z Hs) as Hs'.
    pose proof (PyFacts.py_int_str_Z (z + 1) Hl) as Hz'.
    split; [exact Hs'|]. split; [exact Hz'|].
    apply (bump_version_parsed _ ma (Py.str_Z (z + 1)) rest (z + 1) Hs' Hz').
  - intros H; inversion H; subst; lia.
Qed.

Lemma saved_version_rebumpable_witness :
  exists cat' n names,
    merge_rules scenario_a_catalog scenario_a_candidates = Ok (cat', n, names) /\
    (0 < n)%nat /\
    exists v' ma z rest, version cat' = Some v' /\
      Py.split_dot v' = ma :: Py.str_Z z :: rest /\
      Py.py_int (Py.str_Z z) = Some z /\
      bump_version v' =
        if (10 ^ Py.max_str_digits <=? Z.abs (z + 1))%Z then Err ValueError
        else Ok (Py.join_dot (ma :: Py.str_Z (z + 1) :: rest)).
Proof.
  do 3 eexists.
  lazymatch goal with
  | |- merge_rules ?a ?b = Ok (?c, ?n, ?l) /\ _ =>
      split; [reflexivity|]; split; [lia|];
      apply (saved_version_rebumpable a b c n l); [reflexivity | lia]
  end.
Defined.

End Extra.
